(** * A model of node's [node_script.cc]: sandbox contexts and the evaluation machine

    This development embeds the C++ file [src/node_script.cc] (the [vm]
    binding of node) into Rocq.  The V8 engine it drives is an external
    collaborator; the parts of it that the file relies on (object
    properties, [GetRealNamedProperty], [Set], [Delete],
    [GetPropertyNames], [Object.defineProperty], context creation,
    enter/exit/detach/dispose, and running compiled code) are modelled
    after V8's documented behaviour, with data properties only.

    - values, property descriptors and objects on a heap ([gmap nat obj]);
    - the five named-property interceptors of [WrappedContext];
    - [CloneObject], the property sync helper written in JavaScript;
    - [WrappedContext::New] and its destructor;
    - a small statement language standing for the scripts the engine runs;
    - [WrappedScript::EvalMachine], with an event log of the environment
      operations it performs. *)

From stdpp Require Import base gmap strings list fin_maps pretty.
From Stdlib Require Import ZArith.

Local Open Scope string_scope.

(** ** Values and objects *)

Inductive value :=
  | VUndefined
  | VNull
  | VBool (b : bool)
  | VNum (z : Z)
  | VStr (s : string)
  | VObj (o : nat).

#[global] Instance value_eq_dec : EqDecision value.
Proof. solve_decision. Defined.

(** [StrictEquals] on the modelled values (object identity for objects). *)
Definition strict_equals (v w : value) : bool := bool_decide (v = w).

(** The scripts run by the engine: a small statement language with global
    variable reads and writes (which go through the interceptors of a
    sandboxed global), member reads and writes on ordinary objects,
    [delete] of a global and [throw]. *)
Inductive expr :=
  | ELit (v : value)
  | EGlobal (k : string)
  | EMember (e : expr) (k : string)
  | EThis.

Inductive stmt :=
  | SExpr (e : expr)
  | SAssign (k : string) (e : expr)
  | SMemberAssign (e : expr) (k : string) (rhs : expr)
  | SDelete (k : string)
  | SThrow (e : expr).

Definition prog := list stmt.

Record desc := mkDesc {
  d_value : value;
  d_writable : bool;
  d_enumerable : bool;
  d_configurable : bool
}.

(** The internal field of an object, as the file uses it. *)
Inductive field :=
  | FNone
  | FGlobalProxy                       (* [context->Global()]: forwards to its global *)
  | FContextHost (c : nat)             (* a [Context] instance wrapping [WrappedContext] c *)
  | FDataWrapper (p : option nat)      (* [data_wrapper_]: back-pointer, or NULL *)
  | FScriptHolder (p : option (option prog)).
      (* a [NodeScript] instance: NULL, or a [WrappedScript] whose [script_]
         is empty or holds a compiled script *)

Record obj := mkObj {
  o_props : list (string * desc);
  o_proto : option nat;
  o_extensible : bool;
  o_field : field
}.

Abbreviation heap := (gmap nat obj).

Definition set_props (ob : obj) (ps : list (string * desc)) : obj :=
  mkObj ps (o_proto ob) (o_extensible ob) (o_field ob).

Definition set_proto (ob : obj) (p : option nat) : obj :=
  mkObj (o_props ob) p (o_extensible ob) (o_field ob).

Definition set_field (ob : obj) (f : field) : obj :=
  mkObj (o_props ob) (o_proto ob) (o_extensible ob) f.

Fixpoint assoc (k : string) (ps : list (string * desc)) : option desc :=
  match ps with
  | [] => None
  | (k', d) :: ps' => if String.eqb k k' then Some d else assoc k ps'
  end.

(** Replace the descriptor of an existing own property, in place. *)
Fixpoint assoc_replace (k : string) (d : desc) (ps : list (string * desc))
    : list (string * desc) :=
  match ps with
  | [] => []
  | (k', d') :: ps' =>
      if String.eqb k k' then (k', d) :: ps' else (k', d') :: assoc_replace k d ps'
  end.

Fixpoint assoc_remove (k : string) (ps : list (string * desc)) : list (string * desc) :=
  match ps with
  | [] => []
  | (k', d') :: ps' => if String.eqb k k' then ps' else (k', d') :: assoc_remove k ps'
  end.

(** ** The object model (V8 collaborator) *)

(** Operations applied to a global proxy act on the global behind it. *)
Definition resolve (h : heap) (o : nat) : nat :=
  match h !! o with
  | Some ob =>
      match o_field ob, o_proto ob with
      | FGlobalProxy, Some g => g
      | _, _ => o
      end
  | None => o
  end.

(** Property lookup along the prototype chain ([fuel] bounds the chain). *)
Fixpoint lookup_desc (fuel : nat) (h : heap) (o : nat) (k : string) : option desc :=
  match fuel with
  | 0 => None
  | S f =>
      match h !! o with
      | None => None
      | Some ob =>
          match assoc k (o_props ob) with
          | Some d => Some d
          | None =>
              match o_proto ob with
              | Some p => lookup_desc f h p k
              | None => None
              end
          end
      end
  end.

(** [Object::GetRealNamedProperty]: own-or-prototype lookup that skips
    interceptors; [None] is the empty handle. *)
Definition get_real_named_property (h : heap) (o : nat) (k : string) : option value :=
  option_map d_value (lookup_desc (size h) h o k).

(** [Object::Set] (and a sloppy-mode assignment): an ordinary [[Set]] on a
    data property, which silently does nothing on a non-writable property
    (own or inherited) or on a non-extensible object lacking [k]. *)
Definition js_set (h : heap) (o0 : nat) (k : string) (v : value) : heap :=
  let o := resolve h o0 in
  match h !! o with
  | None => h
  | Some ob =>
      let add_own :=
        if o_extensible ob
        then <[o := set_props ob (o_props ob ++ [(k, mkDesc v true true true)])]> h
        else h in
      match assoc k (o_props ob) with
      | Some d =>
          if d_writable d
          then <[o := set_props ob (assoc_replace k (mkDesc v true (d_enumerable d) (d_configurable d)) (o_props ob))]> h
          else h
      | None =>
          match (match o_proto ob with
                 | Some p => lookup_desc (size h) h p k
                 | None => None end) with
          | Some d => if d_writable d then add_own else h
          | None => add_own
          end
      end
  end.

(** [Object::Delete]: true when the property is absent or was removed. *)
Definition js_delete (h : heap) (o0 : nat) (k : string) : bool * heap :=
  let o := resolve h o0 in
  match h !! o with
  | None => (true, h)
  | Some ob =>
      match assoc k (o_props ob) with
      | None => (true, h)
      | Some d =>
          if d_configurable d
          then (true, <[o := set_props ob (assoc_remove k (o_props ob))]> h)
          else (false, h)
      end
  end.

(** [Object.defineProperty] with a full data descriptor; [None] is the
    TypeError it throws when the definition is rejected. *)
Definition define_property (h : heap) (o0 : nat) (k : string) (d : desc) : option heap :=
  let o := resolve h o0 in
  match h !! o with
  | None => None
  | Some ob =>
      let put := Some (<[o := set_props ob (assoc_replace k d (o_props ob))]> h) in
      match assoc k (o_props ob) with
      | None =>
          if o_extensible ob
          then Some (<[o := set_props ob (o_props ob ++ [(k, d)])]> h)
          else None
      | Some cur =>
          if d_configurable cur then put
          else if d_configurable d then None
          else if negb (Bool.eqb (d_enumerable d) (d_enumerable cur)) then None
          else if d_writable cur then put
          else if d_writable d then None
          else if strict_equals (d_value d) (d_value cur) then put
          else None
      end
  end.

(** [Object.getOwnPropertyNames] and [Object.getOwnPropertyDescriptor]. *)
Definition own_names (h : heap) (o : nat) : list string :=
  match h !! resolve h o with
  | Some ob => map fst (o_props ob)
  | None => []
  end.

Definition own_desc (h : heap) (o : nat) (k : string) : option desc :=
  match h !! resolve h o with
  | Some ob => assoc k (o_props ob)
  | None => None
  end.

(** [Object::GetPropertyNames]: the names a for-in loop visits, i.e. the
    enumerable properties of the object and of its prototypes, a name
    shadowed by an earlier object of the chain being skipped. *)
Fixpoint for_in_names (fuel : nat) (h : heap) (o : nat) (seen : list string) : list string :=
  match fuel with
  | 0 => []
  | S f =>
      match h !! o with
      | None => []
      | Some ob =>
          map fst (filter (fun kd => d_enumerable kd.2 && negb (bool_decide (kd.1 ∈ seen)))
                          (o_props ob))
          ++ match o_proto ob with
             | Some p => for_in_names f h p (seen ++ map fst (o_props ob))
             | None => []
             end
      end
  end.

Definition get_property_names (h : heap) (o : nat) : list string :=
  for_in_names (size h) h o [].

(** ** [CloneObject]

    The helper compiled from JavaScript:
    for each [key] of [Object.getOwnPropertyNames(source)], read the
    descriptor, rewrite a value that is [source] itself to [target], and
    [Object.defineProperty(target, key, desc)], swallowing any exception. *)
Fixpoint clone_keys (keys : list string) (source target : nat) (h : heap) : heap :=
  match keys with
  | [] => h
  | key :: keys' =>
      let h' :=
        match own_desc h source key with
        | None => h                       (* [desc.value] throws: caught *)
        | Some d =>
            let d' := if strict_equals (d_value d) (VObj source)
                      then mkDesc (VObj target) (d_writable d) (d_enumerable d) (d_configurable d)
                      else d in
            match define_property h target key d' with
            | Some h2 => h2
            | None => h                   (* "Catch sealed properties errors" *)
            end
        end in
      clone_keys keys' source target h'
  end.

Definition clone_object (h : heap) (source target : nat) : heap :=
  clone_keys (own_names h source) source target h.

(** ** Execution environments, wrapped contexts and the interceptors *)

(** A V8 context: its global proxy, the global object behind it, and the
    data object of the named-property interceptor installed on that global
    (only for contexts made by [WrappedContext::CreateV8Context]). *)
Record env := mkEnv {
  env_proxy : nat;
  env_global : nat;
  env_intercept : option nat;
  env_detached : bool;
  env_disposed : bool
}.

(** A [WrappedContext]: [context_], [proxy_global_], [host_] and
    [data_wrapper_]. *)
Record wctx := mkWctx {
  wc_context : nat;
  wc_proxy_global : nat;
  wc_host : nat;
  wc_data : nat
}.

(** [ObjectWrap::Unwrap<WrappedContext>(data)]: the back-pointer held by the
    data wrapper, dereferenced.  [UInvalid] stands for a failed assertion or
    for a pointer to a destroyed [WrappedContext]. *)
Inductive unwrapped :=
  | UNull
  | ULive (w : wctx)
  | UInvalid.

Definition unwrap_data (ws : gmap nat wctx) (h : heap) (data : nat) : unwrapped :=
  match h !! data with
  | Some ob =>
      match o_field ob with
      | FDataWrapper None => UNull
      | FDataWrapper (Some c) =>
          match ws !! c with
          | Some w => ULive w
          | None => UInvalid
          end
      | _ => UInvalid
      end
  | None => UInvalid
  end.

(** What an interceptor hands back to V8: a value, the empty handle
    ("not intercepted"), a name array, or undefined behaviour. *)
Inductive cb_result :=
  | CbValue (v : value)
  | CbEmpty
  | CbNames (l : list string)
  | CbUB.

Definition GlobalPropertyGetter (ws : gmap nat wctx) (h : heap) (data : nat)
    (property : string) : cb_result :=
  match unwrap_data ws h data with
  | UInvalid => CbUB
  | UNull => CbValue VUndefined
  | ULive ctx =>
      let rv := match get_real_named_property h (wc_host ctx) property with
                | Some v => Some v
                | None => get_real_named_property h (wc_proxy_global ctx) property
                end in
      match rv with
      | Some v =>
          if strict_equals v (VObj (wc_host ctx))
          then CbValue (VObj (wc_proxy_global ctx))
          else CbValue v
      | None => CbEmpty
      end
  end.

Definition GlobalPropertySetter (ws : gmap nat wctx) (h : heap) (data : nat)
    (property : string) (v : value) : cb_result * heap :=
  match unwrap_data ws h data with
  | UInvalid => (CbUB, h)
  | UNull => (CbValue VUndefined, h)
  | ULive ctx => (CbValue v, js_set h (wc_host ctx) property v)
  end.

(** [Integer::New(None)] is the attribute set 0. *)
Definition GlobalPropertyQuery (ws : gmap nat wctx) (h : heap) (data : nat)
    (property : string) : cb_result :=
  match unwrap_data ws h data with
  | UInvalid => CbUB
  | UNull => CbEmpty
  | ULive ctx =>
      if bool_decide (is_Some (get_real_named_property h (wc_host ctx) property))
         || bool_decide (is_Some (get_real_named_property h (wc_proxy_global ctx) property))
      then CbValue (VNum 0)
      else CbEmpty
  end.

Definition GlobalPropertyDeleter (ws : gmap nat wctx) (h : heap) (data : nat)
    (property : string) : cb_result * heap :=
  match unwrap_data ws h data with
  | UInvalid => (CbUB, h)
  | UNull => (CbValue (VBool false), h)
  | ULive ctx =>
      let '(success, h1) := js_delete h (wc_host ctx) property in
      if success then (CbValue (VBool true), h1)
      else
        (* [proxy_global_->Delete(property)] goes through the global's
           named interceptor, i.e. back into this callback with the same
           property, where [host_->Delete] fails again: the recursion
           never ends (stack exhaustion). *)
        (CbUB, h1)
  end.

Definition GlobalPropertyEnumerator (ws : gmap nat wctx) (h : heap) (data : nat)
    : cb_result :=
  match unwrap_data ws h data with
  | UInvalid => CbUB
  | UNull => CbNames []
  | ULive ctx => CbNames (get_property_names h (wc_host ctx))
  end.

(** ** The engine state *)

(** Observable environment operations, in the order they happen. *)
Inductive event :=
  | EvCreate (e : nat)
  | EvEnter (e : nat)
  | EvExit (e : nat)
  | EvDetach (e : nat)
  | EvDispose (e : nat)
  | EvSync (source target : nat)
  | EvDisplayError.

Record state := mkState {
  st_heap : heap;
  st_envs : gmap nat env;
  st_wctxs : gmap nat wctx;
  st_stack : list nat;                   (* entered contexts, innermost first *)
  st_log : list event;
  st_next : nat;                         (* next fresh identifier *)
  st_object_prototype : option nat       (* [Object.prototype] of the caller *)
}.

Definition with_heap (st : state) (h : heap) : state :=
  mkState h (st_envs st) (st_wctxs st) (st_stack st) (st_log st) (st_next st)
          (st_object_prototype st).

Definition with_envs (st : state) (es : gmap nat env) : state :=
  mkState (st_heap st) es (st_wctxs st) (st_stack st) (st_log st) (st_next st)
          (st_object_prototype st).

Definition with_wctxs (st : state) (ws : gmap nat wctx) : state :=
  mkState (st_heap st) (st_envs st) ws (st_stack st) (st_log st) (st_next st)
          (st_object_prototype st).

Definition with_stack (st : state) (s : list nat) : state :=
  mkState (st_heap st) (st_envs st) (st_wctxs st) s (st_log st) (st_next st)
          (st_object_prototype st).

Definition log_event (st : state) (ev : event) : state :=
  mkState (st_heap st) (st_envs st) (st_wctxs st) (st_stack st) (st_log st ++ [ev])
          (st_next st) (st_object_prototype st).

Definition bump (st : state) : nat * state :=
  (st_next st, mkState (st_heap st) (st_envs st) (st_wctxs st) (st_stack st) (st_log st)
                       (S (st_next st)) (st_object_prototype st)).

(** Allocate an object. *)
Definition alloc (st : state) (ob : obj) : nat * state :=
  let '(n, st1) := bump st in (n, with_heap st1 (<[n := ob]> (st_heap st1))).

(** [Object::New()]. *)
Definition object_new (st : state) : nat * state :=
  alloc st (mkObj [] (st_object_prototype st) true FNone).

(** [Context::New()]: a global object, the global proxy in front of it, and
    the context; [intercept] is the interceptor data of the global template. *)
Definition context_new (st : state) (intercept : option nat) : nat * state :=
  let '(g, st1) := alloc st (mkObj [] None true FNone) in
  let '(p, st2) := alloc st1 (mkObj [] (Some g) true FGlobalProxy) in
  let '(e, st3) := bump st2 in
  let st4 := with_envs st3 (<[e := mkEnv p g intercept false false]> (st_envs st3)) in
  (e, log_event st4 (EvCreate e)).

Definition update_env (st : state) (e : nat) (f : env -> env) : state :=
  match st_envs st !! e with
  | Some en => with_envs st (<[e := f en]> (st_envs st))
  | None => st
  end.

(** [Context::Enter]: push onto the entered-context stack. *)
Definition context_enter (st : state) (e : nat) : state :=
  log_event (with_stack st (e :: st_stack st)) (EvEnter e).

(** [Context::Exit]: pops the last entered context. *)
Definition context_exit (st : state) (e : nat) : state :=
  log_event (with_stack st (tail (st_stack st))) (EvExit e).

(** [Context::DetachGlobal]: the proxy no longer leads to the global. *)
Definition context_detach_global (st : state) (e : nat) : state :=
  match st_envs st !! e with
  | Some en =>
      let h := st_heap st in
      let h' := match h !! env_proxy en with
                | Some ob => <[env_proxy en := set_proto ob None]> h
                | None => h
                end in
      let st1 := with_heap st h' in
      let st2 := update_env st1 e (fun en => mkEnv (env_proxy en) (env_global en)
                   (env_intercept en) true (env_disposed en)) in
      log_event st2 (EvDetach e)
  | None => log_event st (EvDetach e)
  end.

(** [Persistent<Context>::Dispose]. *)
Definition context_dispose (st : state) (e : nat) : state :=
  log_event (update_env st e (fun en => mkEnv (env_proxy en) (env_global en)
               (env_intercept en) (env_detached en) true)) (EvDispose e).

(** [CloneObject(recv, source, target)], with its call recorded. *)
Definition sync (st : state) (source target : nat) : state :=
  log_event (with_heap st (clone_object (st_heap st) source target)) (EvSync source target).

(** ** Running a script in a context *)

Inductive eres :=
  | EOk (v : value)
  | EExc (v : value)
  | EUB.

Definition reference_error : value := VStr "ReferenceError".
Definition type_error : value := VStr "TypeError".

(** A global variable read: through the interceptor when the global has
    one ([CbEmpty] falls back to the global's own lookup). *)
Definition global_get (ws : gmap nat wctx) (h : heap) (en : env) (k : string) : eres :=
  let default := match get_real_named_property h (env_global en) k with
                 | Some v => EOk v
                 | None => EExc reference_error
                 end in
  match env_intercept en with
  | None => default
  | Some data =>
      match GlobalPropertyGetter ws h data k with
      | CbValue v => EOk v
      | CbEmpty => default
      | _ => EUB
      end
  end.

Definition global_set (ws : gmap nat wctx) (h : heap) (en : env) (k : string) (v : value)
    : option heap :=
  match env_intercept en with
  | None => Some (js_set h (env_global en) k v)
  | Some data =>
      match GlobalPropertySetter ws h data k v with
      | (CbValue _, h') => Some h'
      | (CbEmpty, h') => Some (js_set h' (env_global en) k v)
      | _ => None
      end
  end.

Definition global_delete (ws : gmap nat wctx) (h : heap) (en : env) (k : string)
    : option (bool * heap) :=
  match env_intercept en with
  | None => Some (js_delete h (env_global en) k)
  | Some data =>
      match GlobalPropertyDeleter ws h data k with
      | (CbValue (VBool b), h') => Some (b, h')
      | (CbEmpty, h') => Some (js_delete h' (env_global en) k)
      | _ => None
      end
  end.

(** Member accesses use the ordinary lookup (no interceptor on them). *)
Fixpoint eval_expr (ws : gmap nat wctx) (h : heap) (en : env) (e : expr) : eres :=
  match e with
  | ELit v => EOk v
  | EGlobal k => global_get ws h en k
  | EMember e' k =>
      match eval_expr ws h en e' with
      | EOk (VObj o) =>
          EOk (match get_real_named_property h o k with Some v => v | None => VUndefined end)
      | EOk VUndefined | EOk VNull => EExc type_error
      | EOk _ => EOk VUndefined
      | r => r
      end
  | EThis => EOk (VObj (env_proxy en))
  end.

Inductive run_result :=
  | RunOk (v : value) (h : heap)
  | RunThrow (v : value) (h : heap)
  | RunUB.

(** [Script::Run]: the completion value is that of the last statement. *)
Fixpoint exec (ws : gmap nat wctx) (en : env) (ss : prog) (h : heap) (last : value)
    : run_result :=
  match ss with
  | [] => RunOk last h
  | s :: ss' =>
      match s with
      | SExpr e =>
          match eval_expr ws h en e with
          | EOk v => exec ws en ss' h v
          | EExc x => RunThrow x h
          | EUB => RunUB
          end
      | SAssign k e =>
          match eval_expr ws h en e with
          | EOk v =>
              match global_set ws h en k v with
              | Some h' => exec ws en ss' h' v
              | None => RunUB
              end
          | EExc x => RunThrow x h
          | EUB => RunUB
          end
      | SMemberAssign e k rhs =>
          match eval_expr ws h en e with
          | EOk target =>
              match eval_expr ws h en rhs with
              | EOk v =>
                  match target with
                  | VObj o => exec ws en ss' (js_set h o k v) v
                  | VUndefined | VNull => RunThrow type_error h
                  | _ => exec ws en ss' h v
                  end
              | EExc x => RunThrow x h
              | EUB => RunUB
              end
          | EExc x => RunThrow x h
          | EUB => RunUB
          end
      | SDelete k =>
          match global_delete ws h en k with
          | Some (b, h') => exec ws en ss' h' (VBool b)
          | None => RunUB
          end
      | SThrow e =>
          match eval_expr ws h en e with
          | EOk v => RunThrow v h
          | EExc x => RunThrow x h
          | EUB => RunUB
          end
      end
  end.

Definition run_script (st : state) (e : nat) (p : prog) : run_result :=
  match st_envs st !! e with
  | Some en => exec (st_wctxs st) en p (st_heap st) VUndefined
  | None => RunUB
  end.

(** ** Results of the bindings *)

Inductive error :=
  | ETypeError (msg : string)         (* [Exception::TypeError] *)
  | EError (msg : string)             (* [Exception::Error] *)
  | ESyntaxError                      (* compile failure rethrown by the TryCatch *)
  | EScript (v : value).              (* exception thrown by the script, rethrown *)

Inductive outcome :=
  | ORet (v : value)
  | OThrow (e : error)
  | OAbort.                           (* failed assertion or undefined behaviour *)

(** [args[i]]: out of range reads [undefined]. *)
Definition arg (args : list value) (i : nat) : value := default VUndefined (args !! i).

Definition is_object (v : value) : bool :=
  match v with VObj _ => true | _ => false end.

(** [Value::ToString] (objects with their default [toString]). *)
Definition to_string (v : value) : string :=
  match v with
  | VUndefined => "undefined"
  | VNull => "null"
  | VBool true => "true"
  | VBool false => "false"
  | VNum z => pretty z
  | VStr s => s
  | VObj _ => "[object Object]"
  end.

Definition set_field_at (st : state) (o : nat) (f : field) : state :=
  match st_heap st !! o with
  | Some ob => with_heap st (<[o := set_field ob f]> (st_heap st))
  | None => st
  end.

(** ** [WrappedContext::New] and [~WrappedContext] *)

(** [this_obj] is [args.This()], the fresh [Context] instance. *)
Definition WrappedContext_New (st : state) (this_obj : nat) (args : list value)
    : outcome * state :=
  if Nat.ltb (List.length args) 1 then
    (OThrow (EError "Wrong number of arguments passed to WrappedContext constructor"), st)
  else match arg args 0 with
  | VObj sandbox =>
      let st1 := sync st sandbox this_obj in
      (* new WrappedContext(host): CreateV8Context, GetOrCreateDataWrapper *)
      let '(c, st2) := bump st1 in
      let '(data, st3) := alloc st2 (mkObj [] None true (FDataWrapper (Some c))) in
      let '(e, st4) := context_new st3 (Some data) in
      let proxy := match st_envs st4 !! e with Some en => env_proxy en | None => 0 end in
      let st5 := with_wctxs st4 (<[c := mkWctx e proxy this_obj data]> (st_wctxs st4)) in
      (* ctx->Wrap(args.This()) *)
      let st6 := set_field_at st5 this_obj (FContextHost c) in
      (ORet (VObj this_obj), st6)
  | _ => (OThrow (EError "Argument to WrappedContext constructor must be an object."), st)
  end.

(** The destructor: dispose [context_], clear the back-pointer held by
    [data_wrapper_]; the [WrappedContext] itself is gone afterwards. *)
Definition WrappedContext_destroy (st : state) (c : nat) : state :=
  match st_wctxs st !! c with
  | Some w =>
      let st1 := context_dispose st (wc_context w) in
      let st2 := set_field_at st1 (wc_data w) (FDataWrapper None) in
      with_wctxs st2 (delete c (st_wctxs st2))
  | None => st
  end.

(** ** [WrappedScript::EvalMachine] *)

Inductive input_flag := compileCode | unwrapExternal.
Inductive context_flag := thisContext | newContext | userContext.
Inductive output_flag := returnResult | wrapExternal.

Definition is_compile (i : input_flag) : bool :=
  match i with compileCode => true | unwrapExternal => false end.

(** [WrappedContext::InstanceOf]. *)
Definition instance_of_context (st : state) (v : value) : bool :=
  match v with
  | VObj o =>
      match st_heap st !! o with
      | Some ob => match o_field ob with FContextHost _ => true | _ => false end
      | None => false
      end
  | _ => false
  end.

(** [ObjectWrap::Unwrap<WrappedContext>(sandbox)->GetV8Context()]. *)
Definition unwrap_context (st : state) (o : nat) : option nat :=
  match st_heap st !! o with
  | Some ob =>
      match o_field ob with
      | FContextHost c => option_map wc_context (st_wctxs st !! c)
      | _ => None
      end
  | None => None
  end.

(** [ObjectWrap::Unwrap<WrappedScript>(args.Holder())]: [None] when the
    assertion on the internal field fails. *)
Definition unwrap_script (st : state) (holder : value) : option (option (option prog)) :=
  match holder with
  | VObj o =>
      match st_heap st !! o with
      | Some ob => match o_field ob with FScriptHolder p => Some p | _ => None end
      | None => None
      end
  | _ => None
  end.

(** The sandbox object of lines 481-487. *)
Definition resolve_sandbox (cf : context_flag) (st : state) (v : value) : option nat * state :=
  match cf with
  | newContext =>
      match v with
      | VObj o => (Some o, st)
      | _ => let '(n, st1) := object_new st in (Some n, st1)
      end
  | userContext => match v with VObj o => (Some o, st) | _ => (None, st) end
  | thisContext => (None, st)
  end.

(** The cleanup of lines 562-568 and 584-589 (without the copy back). *)
Definition release (cf : context_flag) (st : state) (e : nat) : state :=
  match cf with
  | newContext => context_dispose (context_exit (context_detach_global st e) e) e
  | userContext => context_exit st e
  | thisContext => st
  end.

Section EvalMachine.

(** The engine's compiler: [None] when the source is rejected. *)
Variable parse : string -> option prog.

Definition EvalMachine (input_flag : input_flag) (context_flag : context_flag)
    (output_flag : output_flag) (st0 : state) (args : list value) (holder : value)
    : outcome * state :=
  if is_compile input_flag && (Nat.ltb (List.length args) 1) then
    (OThrow (ETypeError "needs at least 'code' argument."), st0)
  else
  let sandbox_index := if is_compile input_flag then 1 else 0 in
  if (match context_flag with userContext => true | _ => false end)
     && negb (instance_of_context st0 (arg args sandbox_index)) then
    (OThrow (ETypeError "needs a 'context' argument."), st0)
  else
  let code := to_string (arg args 0) in
  let '(sandbox, st1) := resolve_sandbox context_flag st0 (arg args sandbox_index) in
  (* the filename only feeds diagnostics *)
  let display_error := match last args with Some (VBool true) => true | _ => false end in
  let '(context, st2) :=
    match context_flag, sandbox with
    | newContext, _ => let '(e, st') := context_new st1 None in (Some e, st')
    | userContext, Some sb => (unwrap_context st1 sb, st1)
    | _, _ => (None, st1)
    end in
  match context_flag, context with
  | userContext, None => (OAbort, st2)
  | _, _ =>
  (* Enter the context *)
  let st3 := match context with Some e => context_enter st2 e | None => st2 end in
  let st4 :=
    match context_flag, sandbox, context with
    | newContext, Some sb, Some e =>
        match st_envs st3 !! e with
        | Some en => sync st3 sb (env_global en)
        | None => st3
        end
    | _, _, _ => st3
    end in
  let script :=
    if is_compile input_flag then
      match parse code with
      | None => inl (OThrow ESyntaxError,
                     if display_error then log_event st4 EvDisplayError else st4)
      | Some p => inr p
      end
    else
      match unwrap_script st4 holder with
      | None => inl (OAbort, st4)
      | Some None => inl (OThrow (EError "Must be called as a method of Script."), st4)
      | Some (Some None) =>
          inl (OThrow (EError "'this' must be a result of previous new Script(code) call."), st4)
      | Some (Some (Some p)) => inr p
      end in
  match script with
  | inl early => early
  | inr p =>
  let run :=
    match output_flag with
    | returnResult =>
        match st_stack st4 with
        | [] => inl (OAbort, st4)
        | cur :: _ =>
            match run_script st4 cur p with
            | RunOk v h => inr (v, with_heap st4 h)
            | RunThrow x h =>
                let st5 := with_heap st4 h in
                inl (OThrow (EScript x),
                     match context with Some e => release context_flag st5 e | None => st5 end)
            | RunUB => inl (OAbort, st4)
            end
        end
    | wrapExternal =>
        match unwrap_script st4 holder, holder with
        | Some None, _ => inl (OThrow (EError "Must be called as a method of Script."), st4)
        | Some (Some _), VObj o => inr (holder, set_field_at st4 o (FScriptHolder (Some (Some p))))
        | _, _ => inl (OAbort, st4)
        end
    end in
  match run with
  | inl early => early
  | inr (result, st5) =>
      let st6 :=
        match context_flag, sandbox, context with
        | newContext, Some sb, Some e =>
            let st' := match st_envs st5 !! e with
                       | Some en => sync st5 (env_global en) sb
                       | None => st5
                       end in
            release newContext st' e
        | userContext, _, Some e => release userContext st5 e
        | _, _, _ => st5
        end in
      (ORet result, st6)
  end
  end
  end.

End EvalMachine.

(** ** The entry points of [WrappedScript] (lines 395-455) *)

Section EntryPoints.
Variable parse : string -> option prog.

Definition RunInNewContext := EvalMachine parse unwrapExternal newContext returnResult.

(** [Script.runInContext(code, context)] and the other static functions. *)
Definition CompileRunInContext := EvalMachine parse compileCode userContext returnResult.
Definition CompileRunInThisContext := EvalMachine parse compileCode thisContext returnResult.
Definition CompileRunInNewContext := EvalMachine parse compileCode newContext returnResult.


End EntryPoints.

(** ** [WrappedContext::NewInstance] and [createContext] (lines 326-336, 415-419) *)



(** ** Fixtures: a caller's state and a few scripts *)

Definition data_desc (v : value) : desc := mkDesc v true true true.

(** An ordinary object whose prototype is the caller's [Object.prototype]. *)
Definition plain (ps : list (string * desc)) : obj := mkObj ps (Some 0) true FNone.

(** The calling context: [Object.prototype] (0), its global (1) behind the
    proxy (2), and the context itself (3), entered. *)
Definition main_heap : heap :=
  <[0 := mkObj [] None true FNone]> (<[1 := plain []]> (<[2 := mkObj [] (Some 1) true FGlobalProxy]> ∅)).

Definition main_state (objs : list (nat * obj)) : state :=
  mkState (list_to_map objs ∪ main_heap) {[3 := mkEnv 2 1 None false false]} ∅ [3] [] 20 (Some 0).

(** [new Context(sandbox)] with [args.This()] = [this_obj]; the new
    [WrappedContext] is 20, its data wrapper 21, its global 22, its global
    proxy 23 and its V8 context 24. *)
Definition context_state (objs : list (nat * obj)) (this_obj sandbox : nat) : state :=
  snd (WrappedContext_New (main_state objs) this_obj [VObj sandbox]).

Definition demo_parse (s : string) : option prog :=
  if String.eqb s "k = 1" then Some [SAssign "k" (ELit (VNum 1))]
  else if String.eqb s "inner.owner.x = 1" then
    Some [SMemberAssign (EMember (EGlobal "inner") "owner") "x" (ELit (VNum 1))]
  else None.

(** An object wrapped by [WrappedScript], holding [p]. *)
Definition script_obj (p : option (option prog)) : obj := mkObj [] None true (FScriptHolder p).



Definition get_own_value (h : heap) (o : nat) (k : string) : option value :=
  option_map d_value (own_desc h o k).


(** When an ordinary [[Set]] of [k] on [o] takes effect: the property is
    writable (own, or inherited when [o] is extensible), or absent along
    the whole chain of an extensible [o]. *)
Definition assignable (h : heap) (o : nat) (k : string) : bool :=
  match h !! resolve h o with
  | None => false
  | Some ob =>
      match assoc k (o_props ob) with
      | Some d => d_writable d
      | None =>
          match (match o_proto ob with
                 | Some p => lookup_desc (size h) h p k
                 | None => None end) with
          | Some d => d_writable d && o_extensible ob
          | None => o_extensible ob
          end
      end
  end.

(** [st'] extends the log of [st]. *)
Definition log_ext (st st' : state) : Prop := exists l, st_log st' = (st_log st ++ l)%list.

(** ** Auxiliary notions for the proofs about copying *)

(** The shape of a heap update: object [x] is kept, or only its property
    list changes, in a way described by [R]. *)
Definition props_step (R : list (string * desc) -> list (string * desc) -> Prop)
    (h h' : heap) : Prop :=
  forall x, h' !! x = h !! x \/
            exists ob ps, h !! x = Some ob /\ h' !! x = Some (set_props ob ps) /\ R (o_props ob) ps.






(** * Theorems *)

(** ** Concrete runs *)

(** C1 (code_bug): [Script.runInContext("{", ctx)] rethrows the syntax error
    with the context still entered: it is never exited. *)
Theorem C1_compile_error_leaves_context_entered :
  let '(r, st) := EvalMachine demo_parse compileCode userContext returnResult
                    (context_state [(5, plain []); (6, plain [])] 6 5)
                    [VStr "{"; VObj 6] VUndefined in
  r = OThrow ESyntaxError /\ st_stack st = [24; 3] /\ ~ In (EvExit 24) (st_log st).
Proof. vm_compute. split; [reflexivity | split; [reflexivity |]]. intuition discriminate. Qed.

(** C7 (code_bug): [Script.runInNewContext("{", sandbox)] rethrows the syntax
    error without disposing the fresh context it created (and entered). *)
Theorem C7_compile_error_fresh_context_not_disposed :
  let '(r, st) := EvalMachine demo_parse compileCode newContext returnResult
                    (main_state [(5, plain [])]) [VStr "{"; VObj 5] VUndefined in
  r = OThrow ESyntaxError /\ option_map env_disposed (st_envs st !! 22) = Some false
  /\ st_stack st = [22; 3].
Proof. vm_compute. auto. Qed.



(** C5 (counterexample): writing a global that the sandbox holds as
    non-writable leaves the old value on the wrapper. *)
Theorem C5_setter_non_writable_unchanged :
  let st := context_state [(5, plain [("k", mkDesc (VNum 1) false true true)]); (6, plain [])] 6 5 in
  let '(r, h) := GlobalPropertySetter (st_wctxs st) (st_heap st) 21 "k" (VNum 2) in
  r = CbValue (VNum 2) /\ get_own_value h 6 "k" = Some (VNum 1).
Proof. vm_compute. auto. Qed.

(** C6 (counterexample): the enumerator lists an enumerable property the
    wrapper inherits, though the wrapper has no own property. *)
Theorem C6_enumerator_lists_inherited :
  let st := context_state [(5, plain []); (6, mkObj [] (Some 7) true FNone);
                           (7, plain [("inherited", data_desc (VNum 1))])] 6 5 in
  GlobalPropertyEnumerator (st_wctxs st) (st_heap st) 21 = CbNames ["inherited"]
  /\ own_names (st_heap st) 6 = [].
Proof. vm_compute. auto. Qed.


(** ** Object model lemmas *)

Lemma assoc_replace_same k d ps d0 :
  assoc k ps = Some d0 -> assoc k (assoc_replace k d ps) = Some d.
Proof.
  induction ps as [|[k' d'] ps IH]; simpl; [discriminate|].
  destruct (String.eqb k k') eqn:E; simpl; rewrite ?E; auto.
Qed.


Lemma assoc_app_new k d ps :
  assoc k ps = None -> assoc k (ps ++ [(k, d)]) = Some d.
Proof.
  induction ps as [|[k' d'] ps IH]; simpl.
  - rewrite String.eqb_refl. reflexivity.
  - destruct (String.eqb k k'); [discriminate | exact IH].
Qed.


(** Rewriting an object's properties keeps every [resolve]. *)
Lemma resolve_set_props h t ob ps o :
  h !! t = Some ob -> resolve (<[t := set_props ob ps]> h) o = resolve h o.
Proof.
  intros Ht. unfold resolve. destruct (decide (t = o)) as [->|Hne].
  - rewrite lookup_insert_eq, Ht. reflexivity.
  - rewrite lookup_insert_ne by exact Hne. reflexivity.
Qed.

(** [Object::Set] only touches the object it resolves to. *)
Lemma js_set_frame h o k v o' :
  o' <> resolve h o -> js_set h o k v !! o' = h !! o'.
Proof.
  intros Hne. unfold js_set.
  destruct (h !! resolve h o) as [ob|]; [|reflexivity].
  repeat (case_match; try reflexivity; try (rewrite lookup_insert_ne by congruence; reflexivity)).
Qed.

Lemma js_set_assigns h o k v :
  assignable h o k = true -> get_own_value (js_set h o k v) o k = Some v.
Proof.
  unfold assignable, js_set, get_own_value, own_desc.
  destruct (h !! resolve h o) as [ob|] eqn:Hob; [|discriminate].
  destruct (assoc k (o_props ob)) as [d|] eqn:Hk.
  - intros Hw. rewrite Hw. rewrite resolve_set_props by exact Hob.
    rewrite lookup_insert_eq. simpl. erewrite assoc_replace_same by exact Hk. reflexivity.
  - destruct (match o_proto ob with Some p => lookup_desc (size h) h p k | None => None end)
      as [d|].
    + intros Hw. apply andb_true_iff in Hw as [Hw He]. rewrite Hw, He.
      rewrite resolve_set_props by exact Hob. rewrite lookup_insert_eq. simpl.
      rewrite assoc_app_new by exact Hk. reflexivity.
    + intros He. rewrite He.
      rewrite resolve_set_props by exact Hob. rewrite lookup_insert_eq. simpl.
      rewrite assoc_app_new by exact Hk. reflexivity.
Qed.

Lemma context_dispose_heap st e : st_heap (context_dispose st e) = st_heap st.
Proof. unfold context_dispose, update_env. destruct (st_envs st !! e); reflexivity. Qed.

(** After the destructor the data wrapper holds NULL. *)
Lemma destroy_unwrap_null st c w :
  st_wctxs st !! c = Some w -> is_Some (st_heap st !! wc_data w) ->
  unwrap_data (st_wctxs (WrappedContext_destroy st c)) (st_heap (WrappedContext_destroy st c))
              (wc_data w) = UNull.
Proof.
  intros Hw [ob Hob]. unfold WrappedContext_destroy. rewrite Hw.
  unfold set_field_at. rewrite context_dispose_heap, Hob. simpl.
  unfold unwrap_data. rewrite lookup_insert_eq. reflexivity.
Qed.

(** ** C4: the getter *)

(** C4 (confirmed): on a live context with interception target [S] (the
    wrapper [host_]) and proxy global [G], the getter returns the real
    own-or-prototype property of [S] if present, otherwise that of [G];
    a result that is [S] itself is replaced by [G]; and it answers "not
    intercepted" exactly when the property is absent on both. *)
Theorem C4_getter_lookup (ws : gmap nat wctx) (h : heap) (data : nat) (w : wctx)
    (property : string) (Hlive : unwrap_data ws h data = ULive w) :
  let S := wc_host w in
  let G := wc_proxy_global w in
  let subst v := if strict_equals v (VObj S) then VObj G else v in
  (forall v, get_real_named_property h S property = Some v ->
     GlobalPropertyGetter ws h data property = CbValue (subst v)) /\
  (get_real_named_property h S property = None ->
   forall v, get_real_named_property h G property = Some v ->
     GlobalPropertyGetter ws h data property = CbValue (subst v)) /\
  (GlobalPropertyGetter ws h data property = CbEmpty <->
   get_real_named_property h S property = None /\ get_real_named_property h G property = None).
Proof.
  intros S G subst. unfold GlobalPropertyGetter. rewrite Hlive. fold S G.
  split; [|split].
  - intros v Hv. rewrite Hv. unfold subst. destruct (strict_equals v (VObj S)); reflexivity.
  - intros HS v Hv. rewrite HS, Hv. unfold subst. destruct (strict_equals v (VObj S)); reflexivity.
  - destruct (get_real_named_property h S property) as [v|];
      [|destruct (get_real_named_property h G property) as [v|]].
    + destruct (strict_equals v (VObj S));
        (split; intros H; [discriminate H | destruct H as [H1 _]; discriminate H1]).
    + destruct (strict_equals v (VObj S));
        (split; intros H; [discriminate H | destruct H as [_ H2]; discriminate H2]).
    + tauto.
Qed.

Lemma C4_getter_lookup_witness :
  let st := context_state [(5, plain [("a", data_desc (VNum 7))]); (6, plain [])] 6 5 in
  unwrap_data (st_wctxs st) (st_heap st) 21 = ULive (mkWctx 24 23 6 21) /\
  let S := 6 in let G := 23 in
  let subst v := if strict_equals v (VObj S) then VObj G else v in
  (forall v, get_real_named_property (st_heap st) S "a" = Some v ->
     GlobalPropertyGetter (st_wctxs st) (st_heap st) 21 "a" = CbValue (subst v)) /\
  (get_real_named_property (st_heap st) S "a" = None ->
   forall v, get_real_named_property (st_heap st) G "a" = Some v ->
     GlobalPropertyGetter (st_wctxs st) (st_heap st) 21 "a" = CbValue (subst v)) /\
  (GlobalPropertyGetter (st_wctxs st) (st_heap st) 21 "a" = CbEmpty <->
   get_real_named_property (st_heap st) S "a" = None /\
   get_real_named_property (st_heap st) G "a" = None).
Proof.
  intros st. split; [vm_compute; reflexivity|].
  exact (C4_getter_lookup (st_wctxs st) (st_heap st) 21 (mkWctx 24 23 6 21) "a"
           ltac:(vm_compute; reflexivity)).
Defined.

(** ** C5: the setter *)

(** C5 (corrected): on a live context with interception target [S] (the
    host wrapper), the setter returns [V] and its one action is
    [host_->Set(P, V)], an ordinary assignment of [V] to [P] on [S]; it
    does not read or write the proxy global [G].  For a data property (the
    only kind modelled; a setter named [P] on [S]'s prototype chain would
    run instead) the assignment changes no object but the one [S] resolves
    to, and [S.P] becomes [V] whenever it is allowed: the property is not
    read-only on [S] or its prototype chain, and [S] is extensible if the
    assignment must create it. *)
Theorem C5_setter_assigns_on_sandbox (ws : gmap nat wctx) (h : heap) (data : nat)
    (w : wctx) (property : string) (v : value) (Hlive : unwrap_data ws h data = ULive w) :
  let S := wc_host w in
  GlobalPropertySetter ws h data property v = (CbValue v, js_set h S property v) /\
  (forall o, o <> resolve h S -> js_set h S property v !! o = h !! o) /\
  (assignable h S property = true -> get_own_value (js_set h S property v) S property = Some v).
Proof.
  intros S. split; [|split].
  - unfold GlobalPropertySetter. rewrite Hlive. reflexivity.
  - intros o Ho. apply js_set_frame. exact Ho.
  - apply js_set_assigns.
Qed.

Lemma C5_setter_assigns_on_sandbox_witness :
  let st := context_state [(5, plain [("k", mkDesc (VNum 1) false true true)]); (6, plain [])] 6 5 in
  unwrap_data (st_wctxs st) (st_heap st) 21 = ULive (mkWctx 24 23 6 21) /\
  (GlobalPropertySetter (st_wctxs st) (st_heap st) 21 "x" (VNum 2)
     = (CbValue (VNum 2), js_set (st_heap st) 6 "x" (VNum 2)) /\
   (forall o, o <> resolve (st_heap st) 6 -> js_set (st_heap st) 6 "x" (VNum 2) !! o = st_heap st !! o) /\
   (assignable (st_heap st) 6 "x" = true ->
    get_own_value (js_set (st_heap st) 6 "x" (VNum 2)) 6 "x" = Some (VNum 2))).
Proof.
  intros st. split; [vm_compute; reflexivity|].
  exact (C5_setter_assigns_on_sandbox (st_wctxs st) (st_heap st) 21 (mkWctx 24 23 6 21) "x" (VNum 2)
           ltac:(vm_compute; reflexivity)).
Defined.

(** ** C6: the enumerator *)

Lemma filter_seen_nil (ps : list (string * desc)) :
  filter (fun kd => d_enumerable kd.2 && negb (bool_decide (kd.1 ∈ ([] : list string)))) ps
  = filter (fun kd => d_enumerable kd.2) ps.
Proof.
  apply list_filter_iff. intros [k d]. simpl. rewrite andb_true_r. reflexivity.
Qed.

(** C6 (corrected): on a live context with interception target [S], the
    enumerator returns the for-in names of [S]: its own enumerable names,
    followed by the enumerable names it inherits along its prototype chain
    that no earlier object of the chain shadows.  The names of the proxy
    global [G] are not merged in. *)
Theorem C6_enumerator_for_in_names (ws : gmap nat wctx) (h : heap) (data : nat) (w : wctx)
    (ob : obj) (Hlive : unwrap_data ws h data = ULive w) (Hob : h !! wc_host w = Some ob) :
  GlobalPropertyEnumerator ws h data =
  CbNames (map fst (filter (fun kd => d_enumerable kd.2) (o_props ob))
           ++ match o_proto ob with
              | Some p => for_in_names (pred (size h)) h p (map fst (o_props ob))
              | None => []
              end).
Proof.
  unfold GlobalPropertyEnumerator. rewrite Hlive. unfold get_property_names.
  assert (Hsz : size h <> 0) by (apply (map_size_ne_0_lookup_2 h (wc_host w)); rewrite Hob; eauto).
  destruct (size h) as [|n] eqn:E; [congruence|]. simpl. rewrite Hob, filter_seen_nil. reflexivity.
Qed.

Lemma C6_enumerator_for_in_names_witness :
  let st := context_state [(5, plain [("a", data_desc (VNum 1))]); (6, mkObj [] (Some 7) true FNone);
                           (7, plain [("inherited", data_desc (VNum 1))])] 6 5 in
  unwrap_data (st_wctxs st) (st_heap st) 21 = ULive (mkWctx 24 23 6 21) /\
  st_heap st !! 6 = Some (mkObj [("a", data_desc (VNum 1))] (Some 7) true (FContextHost 20)) /\
  GlobalPropertyEnumerator (st_wctxs st) (st_heap st) 21 =
  CbNames (map fst (filter (fun kd => d_enumerable kd.2) [("a", data_desc (VNum 1))])
           ++ for_in_names (pred (size (st_heap st))) (st_heap st) 7 ["a"]).
Proof.
  intros st. split; [vm_compute; reflexivity|]. split; [vm_compute; reflexivity|].
  exact (C6_enumerator_for_in_names (st_wctxs st) (st_heap st) 21 (mkWctx 24 23 6 21)
           (mkObj [("a", data_desc (VNum 1))] (Some 7) true (FContextHost 20))
           ltac:(vm_compute; reflexivity) ltac:(vm_compute; reflexivity)).
Defined.

(** ** C8: callbacks after the context is destroyed *)

(** C8 (confirmed): once a [WrappedContext] has been destroyed (its data
    wrapper's back-pointer cleared), its five interceptors fail soft without
    touching the heap: undefined for get and set, "not found" for query,
    false for delete, an empty list for enumerate. *)
Theorem C8_destroyed_callbacks_soft (st : state) (c : nat) (w : wctx) (property : string)
    (v : value) (Hw : st_wctxs st !! c = Some w) (Hdata : is_Some (st_heap st !! wc_data w)) :
  let st' := WrappedContext_destroy st c in
  let ws := st_wctxs st' in
  let h := st_heap st' in
  GlobalPropertyGetter ws h (wc_data w) property = CbValue VUndefined /\
  GlobalPropertySetter ws h (wc_data w) property v = (CbValue VUndefined, h) /\
  GlobalPropertyQuery ws h (wc_data w) property = CbEmpty /\
  GlobalPropertyDeleter ws h (wc_data w) property = (CbValue (VBool false), h) /\
  GlobalPropertyEnumerator ws h (wc_data w) = CbNames [].
Proof.
  intros st' ws h.
  pose proof (destroy_unwrap_null st c w Hw Hdata) as Hn. fold st' ws h in Hn.
  unfold GlobalPropertyGetter, GlobalPropertySetter, GlobalPropertyQuery,
    GlobalPropertyDeleter, GlobalPropertyEnumerator.
  rewrite Hn. repeat split.
Qed.

Lemma C8_destroyed_callbacks_soft_witness :
  let st := context_state [(5, plain [("a", data_desc (VNum 1))]); (6, plain [])] 6 5 in
  st_wctxs st !! 20 = Some (mkWctx 24 23 6 21) /\ is_Some (st_heap st !! 21) /\
  (let st' := WrappedContext_destroy st 20 in
   let ws := st_wctxs st' in
   let h := st_heap st' in
   GlobalPropertyGetter ws h 21 "a" = CbValue VUndefined /\
   GlobalPropertySetter ws h 21 "a" (VNum 3) = (CbValue VUndefined, h) /\
   GlobalPropertyQuery ws h 21 "a" = CbEmpty /\
   GlobalPropertyDeleter ws h 21 "a" = (CbValue (VBool false), h) /\
   GlobalPropertyEnumerator ws h 21 = CbNames []).
Proof.
  intros st. split; [vm_compute; reflexivity|]. split; [vm_compute; eauto|].
  exact (C8_destroyed_callbacks_soft st 20 (mkWctx 24 23 6 21) "a" (VNum 3)
           ltac:(vm_compute; reflexivity) ltac:(vm_compute; eauto)).
Defined.

(** ** The event log only grows *)

Lemma log_ext_refl st : log_ext st st.
Proof. exists []. rewrite app_nil_r. reflexivity. Qed.

Lemma log_ext_same st st' : st_log st' = st_log st -> log_ext st st'.
Proof. intros H. exists []. rewrite H, app_nil_r. reflexivity. Qed.

Lemma log_ext_trans st1 st2 st3 : log_ext st1 st2 -> log_ext st2 st3 -> log_ext st1 st3.
Proof. intros [l1 H1] [l2 H2]. exists (l1 ++ l2)%list. rewrite H2, H1, app_assoc. reflexivity. Qed.

Lemma log_ext_in st st' ev : log_ext st st' -> In ev (st_log st) -> In ev (st_log st').
Proof. intros [l ->] Hin. apply in_or_app. left. exact Hin. Qed.

Lemma log_event_ext st ev : log_ext st (log_event st ev).
Proof. exists [ev]. reflexivity. Qed.

Lemma log_event_after st st' ev : log_ext st st' -> log_ext st (log_event st' ev).
Proof. intros H. eapply log_ext_trans; [exact H|apply log_event_ext]. Qed.

Lemma with_heap_after st st' h : log_ext st st' -> log_ext st (with_heap st' h).
Proof. intros [l H]. exists l. exact H. Qed.

Lemma with_heap_ext st h : log_ext st (with_heap st h).
Proof. apply log_ext_same. reflexivity. Qed.

Lemma update_env_ext st e f : log_ext st (update_env st e f).
Proof. unfold update_env. destruct (st_envs st !! e); apply log_ext_same; reflexivity. Qed.

Lemma set_field_at_ext st o f : log_ext st (set_field_at st o f).
Proof. unfold set_field_at. destruct (st_heap st !! o); apply log_ext_same; reflexivity. Qed.

Lemma sync_ext st a b : log_ext st (sync st a b).
Proof. apply log_event_after, with_heap_ext. Qed.

Lemma detach_ext st e : log_ext st (context_detach_global st e).
Proof.
  unfold context_detach_global. destruct (st_envs st !! e); apply log_event_after;
    [eapply log_ext_trans; [apply with_heap_ext|apply update_env_ext] | apply log_ext_refl].
Qed.

Lemma release_ext cf st e : log_ext st (release cf st e).
Proof.
  destruct cf; simpl; [apply log_ext_refl| |apply log_event_after, log_ext_same; reflexivity].
  unfold context_dispose, context_exit.
  apply log_event_after. eapply log_ext_trans; [|apply update_env_ext].
  apply log_event_after. eapply log_ext_trans; [apply (detach_ext st e)|].
  apply log_ext_same. reflexivity.
Qed.

Lemma sync_after st st' a b : log_ext st st' -> log_ext st (sync st' a b).
Proof. intros H. eapply log_ext_trans; [exact H|apply sync_ext]. Qed.

Lemma release_after cf st st' e : log_ext st st' -> log_ext st (release cf st' e).
Proof. intros H. eapply log_ext_trans; [exact H|apply release_ext]. Qed.

Lemma set_field_at_after st st' o f : log_ext st st' -> log_ext st (set_field_at st' o f).
Proof. intros H. eapply log_ext_trans; [exact H|apply set_field_at_ext]. Qed.

Lemma update_env_after st st' e f : log_ext st st' -> log_ext st (update_env st' e f).
Proof. intros H. eapply log_ext_trans; [exact H|apply update_env_ext]. Qed.

Lemma context_exit_after st st' e : log_ext st st' -> log_ext st (context_exit st' e).
Proof. intros H. apply log_event_after. eapply log_ext_trans; [exact H|apply log_ext_same; reflexivity]. Qed.

Lemma detach_after st st' e : log_ext st st' -> log_ext st (context_detach_global st' e).
Proof. intros H. eapply log_ext_trans; [exact H|apply detach_ext]. Qed.

Ltac solve_log_ext :=
  repeat first [ apply log_event_after | apply with_heap_after | apply sync_after
               | apply release_after | apply set_field_at_after | apply update_env_after
               | apply context_exit_after | apply detach_after ];
  apply log_ext_refl.



(** ** C2: compiling rejected source *)



Lemma context_new_env st i e st' :
  context_new st i = (e, st') ->
  st_envs st' !! e = Some (mkEnv (S (st_next st)) (st_next st) i false false).
Proof.
  unfold context_new, alloc, bump. simpl. intros H. injection H as <- <-. simpl.
  apply lookup_insert_eq.
Qed.

(** ** C10: runInNewContext without a sandbox object *)

(** C10 (confirmed): when the argument in the sandbox position of a
    fresh-context run is missing or not an object, the sandbox is a new
    empty object allocated at the next fresh identifier; the argument
    checks raise nothing on its account (no TypeError at all once the code
    argument is present), and that object is the one synchronised into the
    new context. *)
Theorem C10_non_object_sandbox_fresh_empty (parse : string -> option prog)
    (inf : input_flag) (outf : output_flag) (st : state) (args : list value) (holder : value)
    (Hnobj : is_object (arg args (if is_compile inf then 1 else 0)) = false)
    (Hcode : is_compile inf = true -> 1 <= List.length args) :
  (exists st1, resolve_sandbox newContext st (arg args (if is_compile inf then 1 else 0))
                 = (Some (st_next st), st1) /\
               st_heap st1 !! st_next st = Some (mkObj [] (st_object_prototype st) true FNone)) /\
  let '(r, st') := EvalMachine parse inf newContext outf st args holder in
  (forall msg, r <> OThrow (ETypeError msg)) /\
  exists g, In (EvSync (st_next st) g) (st_log st').
Proof.
  split.
  { destruct (arg args (if is_compile inf then 1 else 0)); try discriminate Hnobj;
      (eexists; split; [reflexivity | apply lookup_insert_eq]). }
  unfold EvalMachine.
  assert (Hchk : is_compile inf && Nat.ltb (List.length args) 1 = false).
  { destruct (is_compile inf); [|reflexivity]. simpl. apply Nat.ltb_ge. auto. }
  rewrite Hchk. cbv beta iota zeta.
  destruct (arg args (if is_compile inf then 1 else 0)) eqn:Ha; try discriminate Hnobj;
  unfold resolve_sandbox; cbv beta iota zeta.
  all: destruct (object_new st) as [n st1] eqn:Hon.
  all: assert (Hn : n = st_next st) by (unfold object_new, alloc, bump in Hon; congruence).
  all: subst n.
  all: destruct (context_new st1 None) as [e st2] eqn:Hcn.
  all: cbv beta iota zeta.
  all: change (st_envs (context_enter st2 e)) with (st_envs st2);
       rewrite (context_new_env _ _ _ _ Hcn); cbv beta iota zeta; cbn [andb].
  all: set (st4 := sync (context_enter st2 e) (st_next st) (env_global _)).
  all: assert (Hin : In (EvSync (st_next st) (st_next st1)) (st_log st4))
         by (apply in_or_app; right; left; reflexivity).
  all: clearbody st4.
  all: repeat case_match; simplify_eq;
       (split; [intros msg Hm; discriminate Hm
               | exists (st_next st1); eapply log_ext_in; [|exact Hin]; solve_log_ext]).
Qed.

Lemma C10_non_object_sandbox_fresh_empty_witness :
  is_object (arg [VStr "k = 1"] 1) = false /\
  (true = true -> 1 <= List.length [VStr "k = 1"]) /\
  (exists st1, resolve_sandbox newContext (main_state []) (arg [VStr "k = 1"] 1)
                 = (Some 20, st1) /\
               st_heap st1 !! 20 = Some (mkObj [] (Some 0) true FNone)) /\
  let '(r, st') := EvalMachine demo_parse compileCode newContext returnResult (main_state [])
                     [VStr "k = 1"] VUndefined in
  (forall msg, r <> OThrow (ETypeError msg)) /\
  exists g, In (EvSync 20 g) (st_log st').
Proof.
  split; [reflexivity|]. split; [intros _; simpl; lia|].
  exact (C10_non_object_sandbox_fresh_empty demo_parse compileCode returnResult (main_state [])
           [VStr "k = 1"] VUndefined ltac:(reflexivity) ltac:(intros _; simpl; lia)).
Defined.

(** ** C3 and C9: copying between a sandbox and a context *)

Lemma resolve_same h h' o :
  option_map (fun ob => (o_field ob, o_proto ob)) (h' !! o)
  = option_map (fun ob => (o_field ob, o_proto ob)) (h !! o) ->
  resolve h' o = resolve h o.
Proof.
  unfold resolve. destruct (h' !! o), (h !! o); simpl; intros E; try discriminate; [|reflexivity].
  injection E as E1 E2. rewrite E1, E2. reflexivity.
Qed.

Lemma js_set_step h o k v :
  props_step (fun ps ps' =>
     (exists d, assoc k ps = Some d /\ ps' = assoc_replace k (mkDesc v true (d_enumerable d) (d_configurable d)) ps)
     \/ ps' = (ps ++ [(k, mkDesc v true true true)])%list) h (js_set h o k v).
Proof.
  intros x. destruct (decide (x = resolve h o)) as [->|Hne]; [|left; apply js_set_frame; exact Hne].
  unfold js_set. destruct (h !! resolve h o) as [ob|] eqn:Hob; [|left; congruence].
  destruct (assoc k (o_props ob)) as [d|] eqn:Hk.
  - destruct (d_writable d); [|left; congruence].
    right. do 2 eexists. split; [reflexivity|]. split; [apply lookup_insert_eq|]. left. eauto.
  - repeat case_match; try (left; reflexivity); try (left; congruence);
      right; do 2 eexists; (split; [reflexivity|]); (split; [apply lookup_insert_eq|]); right; reflexivity.
Qed.


Lemma define_property_step h o k d h' :
  define_property h o k d = Some h' ->
  props_step (fun ps ps' => ps' = assoc_replace k d ps \/ ps' = (ps ++ [(k, d)])%list) h h'.
Proof.
  intros Hd x. unfold define_property in Hd.
  destruct (h !! resolve h o) as [ob|] eqn:Hob; [|discriminate].
  destruct (decide (x = resolve h o)) as [->|Hne].
  - right. exists ob. repeat case_match; simplify_eq;
      (eexists; split; [exact Hob|]; split; [apply lookup_insert_eq|]; auto).
  - left. repeat case_match; simplify_eq; apply lookup_insert_ne; congruence.
Qed.

Section ExecInvariant.
Variable ws : gmap nat wctx.
Variable en : env.
Variable I : heap -> Prop.
Hypothesis Hplain : env_intercept en = None.
Hypothesis Hset : forall h o k v, I h -> I (js_set h o k v).
Hypothesis Hdel : forall h o k, I h -> I (js_delete h o k).2.


End ExecInvariant.































(** ** Further properties: the entry points, the interceptors and [CloneObject] *)



Lemma clone_keys_field keys src tgt h x :
  option_map o_field (clone_keys keys src tgt h !! x) = option_map o_field (h !! x).
Proof.
  revert h. induction keys as [|key keys IH]; intros h; simpl; [reflexivity|].
  rewrite IH. repeat case_match; try reflexivity.
  all: match goal with Hd : define_property _ _ _ _ = Some _ |- _ =>
         destruct (define_property_step _ _ _ _ _ Hd x) as [->|(ob & ps & Hh & Hh' & _)];
       [reflexivity| rewrite Hh, Hh'; reflexivity] end.
Qed.


Lemma unwrap_script_field st o x :
  option_map o_field (st_heap st !! o) = Some (FScriptHolder x) ->
  unwrap_script st (VObj o) = Some x.
Proof.
  unfold unwrap_script. intros H.
  destruct (st_heap st !! o); simplify_eq/=. rewrite H. reflexivity.
Qed.

Lemma alloc_below st ob n st' o :
  alloc st ob = (n, st') -> (o < st_next st)%nat ->
  st_heap st' !! o = st_heap st !! o /\ (o < st_next st')%nat.
Proof.
  unfold alloc, bump. intros H Ho. injection H as <- <-. cbn.
  split; [apply lookup_insert_ne; lia|lia].
Qed.

Lemma context_new_below st i e st' o :
  context_new st i = (e, st') -> (o < st_next st)%nat ->
  st_heap st' !! o = st_heap st !! o /\ (o < st_next st')%nat.
Proof.
  unfold context_new, alloc, bump. intros H Ho. injection H as <- <-. cbn.
  split; [rewrite !lookup_insert_ne by lia; reflexivity|lia].
Qed.

(** X2: running a compiled [Script] is running its source: when the holder
    (allocated below the next fresh identifier) stores the program that
    [code] compiles to, the method [script.runIn*(args)] and the static
    [Script.runIn*(code, args)] give the same outcome and the same state,
    for each of the three targets. *)
Theorem stored_script_run parse cf st args o ob p code :
  st_heap st !! o = Some ob -> o_field ob = FScriptHolder (Some (Some p)) ->
  (o < st_next st)%nat -> parse code = Some p ->
  EvalMachine parse unwrapExternal cf returnResult st args (VObj o) =
  EvalMachine parse compileCode cf returnResult st (VStr code :: args) (VObj o).
Proof.
  intros Hob Hf Hlt Hp. unfold EvalMachine.
  cbn [is_compile andb List.length Nat.ltb Nat.leb].
  change (arg (VStr code :: args) 1) with (arg args 0).
  change (to_string (arg (VStr code :: args) 0)) with code. rewrite Hp.
  destruct (_ && negb _) eqn:Hc; [reflexivity|].
  destruct (resolve_sandbox cf st (arg args 0)) as [sb st1] eqn:Hrs.
  assert (H1 : st_heap st1 !! o = st_heap st !! o /\ (o < st_next st1)%nat).
  { clear Hc. destruct cf; unfold resolve_sandbox in Hrs; repeat case_match; simplify_eq; auto.
    all: eapply alloc_below; eauto. }
  clear Hrs. destruct H1 as [H1 Hlt1].
  match goal with |- (match ?m with pair _ _ => _ end) = _ =>
    destruct m as [ctx st2] eqn:Hctx end.
  assert (H2 : st_heap st2 !! o = st_heap st !! o).
  { clear Hc. destruct cf; repeat case_match; simplify_eq; auto.
    rewrite <- H1. eapply context_new_below; eauto. }
  clear Hctx.
  assert (Hf2 : option_map o_field (st_heap st2 !! o) = Some (FScriptHolder (Some (Some p)))).
  { rewrite H2, Hob. cbn. rewrite Hf. reflexivity. }
  clear H1 H2 Hlt1.
  destruct cf; destruct ctx as [e|]; destruct sb as [sb|]; cbv beta iota zeta; try reflexivity.
  all: try (destruct (st_envs (context_enter st2 e) !! e) as [en|]).
  all: match goal with |- context [unwrap_script ?s (VObj ?x)] =>
         rewrite (unwrap_script_field s x (Some (Some p))); [reflexivity|] end.
  all: try exact Hf2.
  unfold sync, log_event. cbn [st_heap with_heap]. unfold clone_object.
  rewrite clone_keys_field. exact Hf2.
Qed.




Lemma props_step_unwrap_data R ws h h' data :
  props_step R h h' -> unwrap_data ws h' data = unwrap_data ws h data.
Proof.
  intros Hs. unfold unwrap_data.
  destruct (Hs data) as [->|(ob & ps & Hx & Hx' & _)]; [reflexivity|].
  rewrite Hx, Hx'. reflexivity.
Qed.

Lemma lookup_desc_own fuel h o ob k d :
  h !! o = Some ob -> assoc k (o_props ob) = Some d -> lookup_desc (S fuel) h o k = Some d.
Proof. intros Ho Hk. simpl. rewrite Ho, Hk. reflexivity. Qed.

(** X8: a global write through a live context's interceptors is read back:
    after the setter stores [v] under an assignable name of the host, the
    getter returns [v] (the proxy global when [v] is the host itself). *)
Theorem setter_then_getter ws h data w k v :
  unwrap_data ws h data = ULive w -> resolve h (wc_host w) = wc_host w ->
  assignable h (wc_host w) k = true ->
  GlobalPropertyGetter ws (snd (GlobalPropertySetter ws h data k v)) data k =
  CbValue (if strict_equals v (VObj (wc_host w)) then VObj (wc_proxy_global w) else v).
Proof.
  intros Hlive Hres Has. unfold GlobalPropertySetter. rewrite Hlive. cbn [snd].
  set (h' := js_set h (wc_host w) k v).
  pose proof (js_set_assigns h (wc_host w) k v Has) as Hv. fold h' in Hv.
  unfold GlobalPropertyGetter. rewrite (props_step_unwrap_data _ ws h h' data (js_set_step h _ k v)), Hlive.
  unfold get_own_value, own_desc in Hv.
  assert (Hres' : resolve h' (wc_host w) = wc_host w).
  { rewrite <- Hres at 2. apply resolve_same.
    destruct (js_set_step h (wc_host w) k v (wc_host w)) as [Hx|(ob & ps & Hx & Hx' & _)];
      fold h' in Hx; [rewrite Hx; reflexivity|fold h' in Hx'].
    rewrite Hx', Hx. reflexivity. }
  rewrite Hres' in Hv.
  destruct (h' !! wc_host w) as [ob|] eqn:Hob; [|discriminate].
  destruct (assoc k (o_props ob)) as [d|] eqn:Hk; [|discriminate].
  cbn in Hv. injection Hv as Hv.
  assert (Hsz : size h' <> 0) by (eapply map_size_ne_0_lookup_2; rewrite Hob; eauto).
  unfold get_real_named_property. destruct (size h') as [|f]; [congruence|].
  rewrite (lookup_desc_own f h' (wc_host w) ob k d Hob Hk). cbn [option_map]. rewrite Hv.
  destruct (strict_equals v _); reflexivity.
Qed.

(** X9: for a live context the query interceptor reports a name exactly
    when the getter finds it: "not found" for both, or attribute set 0 for
    the query and a value for the getter. *)
Theorem query_agrees_getter ws h data w k :
  unwrap_data ws h data = ULive w ->
  (GlobalPropertyQuery ws h data k = CbEmpty <-> GlobalPropertyGetter ws h data k = CbEmpty) /\
  (GlobalPropertyQuery ws h data k = CbValue (VNum 0) <->
     exists v, GlobalPropertyGetter ws h data k = CbValue v).
Proof.
  intros Hlive. unfold GlobalPropertyQuery, GlobalPropertyGetter. rewrite Hlive.
  destruct (get_real_named_property h (wc_host w) k) as [v|];
  [|destruct (get_real_named_property h (wc_proxy_global w) k) as [v|]]; cbn.
  all: try (destruct (strict_equals v _)).
  all: split; split; intros H; try discriminate; eauto; try reflexivity.
  all: destruct H as [? H]; discriminate.
Qed.




(** X12: deleting through a live context's interceptor a name the host does
    not own reports success and changes nothing, not even a property of
    that name on the proxy global. *)
Theorem deleter_absent ws h data w k :
  unwrap_data ws h data = ULive w -> own_desc h (wc_host w) k = None ->
  GlobalPropertyDeleter ws h data k = (CbValue (VBool true), h).
Proof.
  intros Hlive Hk. unfold GlobalPropertyDeleter, js_delete. rewrite Hlive.
  unfold own_desc in Hk. destruct (h !! resolve h (wc_host w)) as [ob|]; [|reflexivity].
  rewrite Hk. reflexivity.
Qed.



Lemma stored_script_run_witness :
  st_heap (main_state [(7, script_obj (Some (Some [SAssign "k" (ELit (VNum 1))])))]) !! 7
    = Some (script_obj (Some (Some [SAssign "k" (ELit (VNum 1))]))) /\
  o_field (script_obj (Some (Some [SAssign "k" (ELit (VNum 1))])))
    = FScriptHolder (Some (Some [SAssign "k" (ELit (VNum 1))])) /\
  (7 < st_next (main_state [(7, script_obj (Some (Some [SAssign "k" (ELit (VNum 1))])))]))%nat /\
  demo_parse "k = 1" = Some [SAssign "k" (ELit (VNum 1))] /\
  EvalMachine demo_parse unwrapExternal newContext returnResult
    (main_state [(7, script_obj (Some (Some [SAssign "k" (ELit (VNum 1))])))]) [] (VObj 7) =
  EvalMachine demo_parse compileCode newContext returnResult
    (main_state [(7, script_obj (Some (Some [SAssign "k" (ELit (VNum 1))])))]) [VStr "k = 1"] (VObj 7).
Proof.
  split; [vm_compute; reflexivity|]. split; [reflexivity|]. split; [cbn; lia|].
  split; [vm_compute; reflexivity|].
  exact (stored_script_run demo_parse newContext
           (main_state [(7, script_obj (Some (Some [SAssign "k" (ELit (VNum 1))])))]) [] 7
           (script_obj (Some (Some [SAssign "k" (ELit (VNum 1))]))) [SAssign "k" (ELit (VNum 1))] "k = 1"
           ltac:(vm_compute; reflexivity) ltac:(reflexivity) ltac:(cbn; lia) ltac:(vm_compute; reflexivity)).
Defined.



Lemma setter_then_getter_witness :
  let st := context_state [(5, plain []); (6, plain [])] 6 5 in
  unwrap_data (st_wctxs st) (st_heap st) 21 = ULive (mkWctx 24 23 6 21) /\
  resolve (st_heap st) 6 = 6 /\ assignable (st_heap st) 6 "x" = true /\
  GlobalPropertyGetter (st_wctxs st)
    (snd (GlobalPropertySetter (st_wctxs st) (st_heap st) 21 "x" (VObj 6))) 21 "x" =
  CbValue (if strict_equals (VObj 6) (VObj 6) then VObj 23 else VObj 6).
Proof.
  intros st. split; [vm_compute; reflexivity|]. split; [vm_compute; reflexivity|].
  split; [vm_compute; reflexivity|].
  exact (setter_then_getter (st_wctxs st) (st_heap st) 21 (mkWctx 24 23 6 21) "x" (VObj 6)
           ltac:(vm_compute; reflexivity) ltac:(vm_compute; reflexivity) ltac:(vm_compute; reflexivity)).
Defined.

Lemma query_agrees_getter_witness :
  let st := context_state [(5, plain [("a", data_desc (VNum 1))]); (6, plain [])] 6 5 in
  unwrap_data (st_wctxs st) (st_heap st) 21 = ULive (mkWctx 24 23 6 21) /\
  (GlobalPropertyQuery (st_wctxs st) (st_heap st) 21 "b" = CbEmpty <->
     GlobalPropertyGetter (st_wctxs st) (st_heap st) 21 "b" = CbEmpty) /\
  (GlobalPropertyQuery (st_wctxs st) (st_heap st) 21 "b" = CbValue (VNum 0) <->
     exists v, GlobalPropertyGetter (st_wctxs st) (st_heap st) 21 "b" = CbValue v).
Proof.
  intros st. split; [vm_compute; reflexivity|].
  exact (query_agrees_getter (st_wctxs st) (st_heap st) 21 (mkWctx 24 23 6 21) "b"
           ltac:(vm_compute; reflexivity)).
Defined.


Lemma deleter_absent_witness :
  let st := context_state [(5, plain []); (6, plain [])] 6 5 in
  unwrap_data (st_wctxs st) (st_heap st) 21 = ULive (mkWctx 24 23 6 21) /\
  own_desc (st_heap st) 6 "x" = None /\
  GlobalPropertyDeleter (st_wctxs st) (st_heap st) 21 "x" = (CbValue (VBool true), st_heap st).
Proof.
  intros st. split; [vm_compute; reflexivity|]. split; [vm_compute; reflexivity|].
  exact (deleter_absent (st_wctxs st) (st_heap st) 21 (mkWctx 24 23 6 21) "x"
           ltac:(vm_compute; reflexivity) ltac:(vm_compute; reflexivity)).
Defined.

